(** * The WebAPI of infrared: authenticated CRUD over proxy configuration files

    A shallow embedding of [api/api.go].  The Go handlers are written in a
    small state monad over the process state (the package-level [config], the
    file system and the [http.ResponseWriter] of the request being served);
    the operating system and the [net/http], [mux] and [encoding/json]
    libraries, which are not part of the package, are modelled just far
    enough to run the handlers. *)

From Stdlib Require Import Strings.Byte Strings.Ascii Strings.String.
From stdpp Require Import gmap strings list sorting.

(** ** Go values *)

(** A Go [[]byte]. *)
Abbreviation bytes := (list byte).

(** [[]byte(s)] and [string(b)]: both conversions keep every byte. *)
Definition bytes_of (s : string) : bytes := String.list_byte_of_string s.
Definition string_of (b : bytes) : string := String.string_of_list_byte b.

(** ** Package [strings] *)

(** [strings.Split(s, sep)] for a non-empty [sep]: the pieces of [s] between
    the occurrences of [sep], found left to right without overlap.  [skip]
    counts the bytes of a separator just matched that are still to be
    dropped. *)
Fixpoint strings_Split_go (sep : string) (skip : nat) (s : string) : list string :=
  match s with
  | EmptyString => [EmptyString]
  | String c s' =>
      match skip with
      | S k => strings_Split_go sep k s'
      | O =>
          if String.prefix sep s
          then EmptyString :: strings_Split_go sep (String.length sep - 1) s'
          else match strings_Split_go sep 0 s' with
               | h :: t => String c h :: t
               | [] => [String c EmptyString]
               end
      end
  end.

Definition strings_Split (s sep : string) : list string :=
  strings_Split_go sep 0 s.

(** ** Paths and the file system *)

(** The components of a path name, cut at every slash. *)
Fixpoint path_components (p : string) : list string :=
  match p with
  | EmptyString => [EmptyString]
  | String c p' =>
      if Ascii.eqb c "/"%char
      then EmptyString :: path_components p'
      else match path_components p' with
           | h :: t => String c h :: t
           | [] => [String c EmptyString]
           end
  end.

Definition is_rooted (p : string) : bool :=
  match p with
  | String c _ => Ascii.eqb c "/"%char
  | EmptyString => false
  end.

(** One step of name resolution.  The directories walked so far are kept as
    a stack, innermost first. *)
Definition walk (rooted : bool) (stack : list string) (c : string) : list string :=
  if decide (c = EmptyString) then stack
  else if decide (c = ".") then stack
  else if decide (c = "..") then
    match stack with
    | [] => if rooted then [] else [".."]
    | top :: rest => if decide (top = "..") then ".." :: stack else rest
    end
  else c :: stack.

(** A resolved location: whether it hangs off the root or off the working
    directory of the process, and its components, innermost first. *)
Abbreviation Location := (bool * list string)%type.

Definition resolve (p : string) : Location :=
  (is_rooted p, fold_left (walk (is_rooted p)) (path_components p) []).

(** The files of the machine: every regular file with its content.
    Symbolic links and sub-directories of the store are not modelled. *)
Abbreviation Files := (gmap Location bytes).

(** [loc] lies strictly below the directory [dir]. *)
Definition inside (dir loc : Location) : Prop :=
  loc.1 = dir.1 ∧
  ∃ below, loc.2 = below ++ dir.2 ∧ below ≠ [] ∧ ".." ∉ below.

(** The name of [loc] in [dir], when [loc] is an entry of [dir]. *)
Definition entry_of (dir loc : Location) : option string :=
  match loc.2 with
  | n :: up => if decide (loc.1 = dir.1 ∧ up = dir.2) then Some n else None
  | [] => None
  end.

(** ** Errors *)

Inductive Errno := ENOENT | EACCES | EIO | ENOSPC | EISDIR | ENOTDIR.

Definition Errno_Error (e : Errno) : string :=
  match e with
  | ENOENT => "no such file or directory"
  | EACCES => "permission denied"
  | EIO => "input/output error"
  | ENOSPC => "no space left on device"
  | EISDIR => "is a directory"
  | ENOTDIR => "not a directory"
  end.

(** Go's [error] values met by the package: [*os.PathError],
    [*os.LinkError], and any other. *)
Inductive error :=
  | PathError (op path : string) (e : Errno)
  | LinkError (op old new : string) (e : Errno)
  | errorString (msg : string).

(** A Go result [(value, err)]. *)
Inductive result (A : Type) :=
  | Ok (a : A)
  | Err (err : error).
Arguments Ok {A} a.
Arguments Err {A} err.

(** [err.Error()]. *)
Definition Error (err : error) : string :=
  match err with
  | PathError op path e => op +:+ " " +:+ path +:+ ": " +:+ Errno_Error e
  | LinkError op old new e =>
      op +:+ " " +:+ old +:+ " " +:+ new +:+ ": " +:+ Errno_Error e
  | errorString msg => msg
  end.

(** ** Package [net/http]: status codes, requests, the response writer *)

Definition StatusOK : nat := 200.
Definition StatusNoContent : nat := 204.
Definition StatusBadRequest : nat := 400.
Definition StatusUnauthorized : nat := 401.
Definition StatusNotFound : nat := 404.
Definition StatusMethodNotAllowed : nat := 405.
Definition StatusInternalServerError : nat := 500.

(** An [*http.Request], with the variables [mux] extracted from its path. *)
Record Request := {
  Method : string;
  URLPath : string;
  Header : gmap string (list string);
  ReqBody : bytes;
  Vars : gmap string string
}.

(** [h.Get(key)]: the first value of the header, the empty string without. *)
Definition Header_Get (h : gmap string (list string)) (key : string) : string :=
  match h !! key with
  | Some (v :: _) => v
  | _ => EmptyString
  end.

(** [mux.Vars(r)[key]]: indexing a Go map gives the zero value for a key
    that is absent. *)
Definition mux_Vars (r : Request) (key : string) : string :=
  default EmptyString (Vars r !! key).

(** The [http.ResponseWriter] of a request, as a recorder of what the handler
    did with it: the status line once it is committed, and the body bytes
    handed over. *)
Record ResponseWriter := {
  Code : option nat;
  Body : bytes
}.

Definition fresh : ResponseWriter := {| Code := None; Body := [] |}.

(** The status the client is sent: a handler that returns without having
    committed one leaves the server to send 200. *)
Definition status (rw : ResponseWriter) : nat := default StatusOK (Code rw).

(** ** The process *)

(** APIConfig holds the API configuration including the Bearer token. *)
Record APIConfig := { BearerToken : string }.

(** The state a handler runs in: the package variable [config], the files,
    every state of the files that a concurrent reader could have observed
    since the serving began (oldest first), and the response writer. *)
Record State := {
  config : APIConfig;
  files : Files;
  history : list Files;
  writer : ResponseWriter
}.

(** What the surroundings decide during one request: which system calls
    fail, and how.  [None] and [false] stand for a call that goes through. *)
Record Env := {
  body_fault : bool;
  writeFile_fault : option (Errno * option bytes);
  rename_fault : option Errno;
  open_fault : option Errno;
  read_fault : option Errno;
  readDir_fault : option Errno;
  remove_fault : option Errno;
  respWrite_fault : bool
}.

Definition no_faults : Env :=
  {| body_fault := false; writeFile_fault := None; rename_fault := None;
     open_fault := None; read_fault := None; readDir_fault := None;
     remove_fault := None; respWrite_fault := false |}.

(** Computations of a handler. *)
Definition IO (A : Type) : Type := Env → State → A * State.

#[export] Instance IO_ret : MRet IO := λ A a _ st, (a, st).
#[export] Instance IO_bind : MBind IO :=
  λ A B f m env st, let (a, st') := m env st in f a env st'.

Definition ask : IO Env := λ env st, (env, st).
Definition get : IO State := λ _ st, (st, st).
Definition put (st : State) : IO unit := λ _ _, (tt, st).

(** One atomic change of the files, visible to every other process. *)
Definition commit (m : Files) : IO unit :=
  st ← get;
  put {| config := config st; files := m;
         history := history st ++ [m]; writer := writer st |}.

Definition set_writer (rw : ResponseWriter) : IO unit :=
  st ← get;
  put {| config := config st; files := files st;
         history := history st; writer := rw |}.

Definition set_config (c : APIConfig) : IO unit :=
  st ← get;
  put {| config := c; files := files st;
         history := history st; writer := writer st |}.

(** [w.WriteHeader(code)]: the first status committed stays. *)
Definition WriteHeader (code : nat) : IO unit :=
  st ← get;
  match Code (writer st) with
  | Some _ => mret tt
  | None => set_writer {| Code := Some code; Body := Body (writer st) |}
  end.

(** [w.Write(data)]: commits status 200 unless one is committed already,
    then hands the bytes over. *)
Definition Write (data : bytes) : IO (option error) :=
  WriteHeader StatusOK;;
  env ← ask;
  if respWrite_fault env then mret (Some (errorString "write: broken pipe"))
  else
    st ← get;
    set_writer {| Code := Code (writer st); Body := Body (writer st) ++ data |};;
    mret None.

(** [log.Println]: the log is not part of the state. *)
Definition log_Println (err : error) : IO unit := mret tt.

(** ** Packages [os] and [io/ioutil] *)

(** [os.WriteFile(name, data, 0644)] creates or truncates the file, writes
    the bytes and closes it.  A reader running beside it can meet the file
    with any prefix of [data]: each is a state of its own.  A call that
    fails either never got to the file, or leaves it with some content. *)
Definition os_WriteFile (name : string) (data : bytes) : IO (option error) :=
  env ← ask;
  st ← get;
  let loc := resolve name in
  match writeFile_fault env with
  | None =>
      put {| config := config st; files := <[loc := data]> (files st);
             history := history st ++
               ((λ k, <[loc := take k data]> (files st)) <$> seq 0 (S (length data)));
             writer := writer st |};;
      mret None
  | Some (e, None) => mret (Some (PathError "open" name e))
  | Some (e, Some partial) =>
      commit (<[loc := partial]> (files st));;
      mret (Some (PathError "write" name e))
  end.

(** [os.Rename(oldpath, newpath)]: one atomic step that replaces whatever
    file [newpath] names. *)
Definition os_Rename (oldpath newpath : string) : IO (option error) :=
  env ← ask;
  st ← get;
  match rename_fault env with
  | Some e => mret (Some (LinkError "rename" oldpath newpath e))
  | None =>
      match files st !! resolve oldpath with
      | None => mret (Some (LinkError "rename" oldpath newpath ENOENT))
      | Some data =>
          commit (<[resolve newpath := data]> (delete (resolve oldpath) (files st)));;
          mret None
      end
  end.

(** [os.Remove(name)]. *)
Definition os_Remove (name : string) : IO (option error) :=
  env ← ask;
  st ← get;
  match files st !! resolve name with
  | None => mret (Some (PathError "remove" name ENOENT))
  | Some _ =>
      match remove_fault env with
      | Some e => mret (Some (PathError "remove" name e))
      | None => commit (delete (resolve name) (files st));; mret None
      end
  end.

(** An open [*os.File]: the content the file had when it was opened. *)
Record File := { content : bytes }.

(** [os.Open(name)]. *)
Definition os_Open (name : string) : IO (result File) :=
  env ← ask;
  st ← get;
  match files st !! resolve name with
  | None => mret (Err (PathError "open" name ENOENT))
  | Some data =>
      match open_fault env with
      | Some e => mret (Err (PathError "open" name e))
      | None => mret (Ok {| content := data |})
      end
  end.

(** The readers handed to [ioutil.ReadAll]: an open file, a request body. *)
Inductive Reader :=
  | FileReader (f : File)
  | BodyReader (b : bytes).

(** [ioutil.ReadAll(r)]. *)
Definition ioutil_ReadAll (r : Reader) : IO (result bytes) :=
  env ← ask;
  match r with
  | FileReader f =>
      match read_fault env with
      | Some e => mret (Err (PathError "read" EmptyString e))
      | None => mret (Ok (content f))
      end
  | BodyReader b =>
      if body_fault env then mret (Err (errorString "unexpected EOF"))
      else mret (Ok b)
  end.

(** [ioutil.ReadFile(name)]. *)
Definition ioutil_ReadFile (name : string) : IO (result bytes) :=
  f ← os_Open name;
  match f with
  | Err e => mret (Err e)
  | Ok f => ioutil_ReadAll (FileReader f)
  end.

(** An [os.FileInfo]; the package asks for the name only. *)
Record FileInfo := { Name : string }.

(** [ioutil.ReadDir(dirname)]: the entries of the directory, sorted by
    name. *)
Definition ioutil_ReadDir (dirname : string) : IO (result (list FileInfo)) :=
  env ← ask;
  st ← get;
  match readDir_fault env with
  | Some e => mret (Err (PathError "open" dirname e))
  | None =>
      mret (Ok (Build_FileInfo <$>
                  merge_sort String.le
                    (omap (entry_of (resolve dirname)) (map_to_list (files st)).*1)))
  end.

(** ** Package [encoding/json] *)

(** Modelled from the spec: [infrared.ProxyConfig] is declared outside this
    package.  Of the proxy engine's schema the package reads the two fields
    [domainNames] (a list of strings) and [proxyTo] (a string); every other
    field is opaque to it. *)
Record ProxyConfig := {
  DomainNames : list string;
  ProxyTo : string
}.

(** What the package takes from [encoding/json]: [json.Unmarshal] into a
    zero [ProxyConfig] and into the [APIConfig] held so far ([None] is a
    decoding error), and the JSON text of a Go string. *)
Record Json := {
  Unmarshal_ProxyConfig : bytes → option ProxyConfig;
  Unmarshal_APIConfig : bytes → APIConfig → option APIConfig;
  quote : string → string
}.

Definition newline : string := String "010"%char EmptyString.

(** The JSON text of a [map[string]string] with one key. *)
Definition Marshal_map1 (json : Json) (key value : string) : string :=
  "{" +:+ quote json key +:+ ":" +:+ quote json value +:+ "}".

(** The JSON text of a [[]string]; a nil slice is [null]. *)
Definition Marshal_strings (json : Json) (l : list string) : string :=
  match l with
  | [] => "null"
  | _ => "[" +:+ String.concat "," (quote json <$> l) +:+ "]"
  end.

(** [json.NewEncoder(w).Encode(v)] writes the text of [v] and a newline. *)
Definition Encode (text : string) : IO (option error) :=
  Write (bytes_of (text +:+ newline)).

(** ** Package [mux] *)

Definition HandlerFunc : Type := Request → IO unit.

(** A path template: fixed, or a fixed prefix followed by one variable that
    takes a non-empty segment without a slash. *)
Inductive Template :=
  | Fixed (path : string)
  | Segment (pre var : string).

Record Route := {
  template : Template;
  verb : string;
  handler : HandlerFunc
}.

Fixpoint strip_prefix (pre s : string) : option string :=
  match pre, s with
  | EmptyString, _ => Some s
  | String a pre', String b s' =>
      if Ascii.eqb a b then strip_prefix pre' s' else None
  | String _ _, EmptyString => None
  end.

Fixpoint has_char (c : ascii) (s : string) : bool :=
  match s with
  | EmptyString => false
  | String a s' => Ascii.eqb a c || has_char c s'
  end.

Definition match_template (t : Template) (path : string) : option (gmap string string) :=
  match t with
  | Fixed p => if decide (p = path) then Some ∅ else None
  | Segment pre var =>
      match strip_prefix pre path with
      | Some v =>
          if decide (v = EmptyString) then None
          else if has_char "/" v then None
          else Some {[ var := v ]}
      | None => None
      end
  end.

Definition with_vars (r : Request) (vars : gmap string string) : Request :=
  {| Method := Method r; URLPath := URLPath r; Header := Header r;
     ReqBody := ReqBody r; Vars := vars |}.

(** The router: the first route whose template and method both match is
    served; 405 when only templates match, 404 when none does. *)
Fixpoint dispatch (routes : list Route) (known : bool) (r : Request) : IO unit :=
  match routes with
  | [] => WriteHeader (if known then StatusMethodNotAllowed else StatusNotFound)
  | rt :: rest =>
      match match_template (template rt) (URLPath r) with
      | Some vars =>
          if decide (verb rt = Method r) then handler rt (with_vars r vars)
          else dispatch rest true r
      | None => dispatch rest known r
      end
  end.

Definition ServeHTTP (routes : list Route) : HandlerFunc := dispatch routes false.

(** ** Package [api] *)

Section api.

Variable json : Json.

(** The answer of the gate to a request it turns away. *)
Definition deny (reason : string) : IO unit :=
  WriteHeader StatusUnauthorized;;
  Encode (Marshal_map1 json "error" reason);;
  mret tt.

(** authenticateMiddleware checks for valid Bearer token in Authorization
    header. *)
Definition authenticateMiddleware (next : HandlerFunc) : HandlerFunc := λ r,
  let authHeader := Header_Get (Header r) "Authorization" in
  if decide (authHeader = EmptyString) then
    deny "No authorization header provided"
  else
    let headerParts := strings_Split authHeader " " in
    if decide (length headerParts ≠ 2 ∨ nth 0 headerParts EmptyString ≠ "Bearer") then
      deny "Invalid authorization header format"
    else
      let token := nth 1 headerParts EmptyString in
      st ← get;
      if decide (token ≠ BearerToken (config st)) then
        deny "Invalid token"
      else
        next r.

(** LoadConfig loads the API configuration from file. *)
Definition LoadConfig (configFile : string) : IO (option error) :=
  data ← ioutil_ReadFile configFile;
  match data with
  | Err err => mret (Some err)
  | Ok data =>
      st ← get;
      match Unmarshal_APIConfig json data (config st) with
      | None => mret (Some (errorString "invalid character"))
      | Some c =>
          set_config c;;
          if decide (BearerToken c = EmptyString) then
            mret (Some (errorString "bearer token not found in config file"))
          else mret None
      end
  end.

(** getHome *)
Definition getHome : HandlerFunc := λ r, mret tt.

(** getProxies *)
Definition getProxies (configPath : string) : HandlerFunc := λ r,
  files ← ioutil_ReadDir configPath;
  match files with
  | Err err =>
      log_Println err;;
      WriteHeader StatusInternalServerError
  | Ok files =>
      let configs :=
        foldl (λ configs file,
                 configs ++ [nth 0 (strings_Split (Name file) ".json") EmptyString])
              [] files in
      err ← Encode (Marshal_strings json configs);
      match err with
      | Some _ => WriteHeader StatusInternalServerError
      | None => mret tt
      end
  end.

(** getProxy *)
Definition getProxy (configPath : string) : HandlerFunc := λ r,
  let fileName := mux_Vars r "name" +:+ ".json" in
  jsonFile ← os_Open (configPath +:+ "/" +:+ fileName);
  match jsonFile with
  | Err _ => WriteHeader StatusNotFound
  | Ok jsonFile =>
      config ← ioutil_ReadAll (FileReader jsonFile);
      match config with
      | Err err =>
          log_Println err;;
          WriteHeader StatusInternalServerError
      | Ok config =>
          err ← Write config;
          match err with
          | Some err =>
              log_Println err;;
              WriteHeader StatusInternalServerError
          | None => mret tt
          end
      end
  end.

(** checkJSONAndRegister validate proxy configuration *)
Definition checkJSONAndRegister (rawData : bytes) (filename configPath : string) : IO bool :=
  match Unmarshal_ProxyConfig json rawData with
  | None =>
      log_Println (errorString "invalid character");;
      mret false
  | Some cfg =>
      if decide (length (DomainNames cfg) < 1 ∨ ProxyTo cfg = EmptyString) then
        mret false
      else
        let path := configPath +:+ "/" +:+ filename in
        let temppath := path +:+ ".temp" in
        err ← os_WriteFile temppath rawData;
        match err with
        | Some err =>
            log_Println err;;
            mret false
        | None =>
            err ← os_Rename temppath path;
            match err with
            | Some _ => mret false
            | None => mret true
            end
        end
  end.

(** addProxyWithName respond to post proxy request *)
Definition addProxyWithName (configPath : string) : HandlerFunc := λ r,
  let fileName := mux_Vars r "name" +:+ ".json" in
  rawData ← ioutil_ReadAll (BodyReader (ReqBody r));
  match rawData with
  | Err _ => WriteHeader StatusBadRequest
  | Ok rawData =>
      if decide (string_of rawData = EmptyString) then
        WriteHeader StatusBadRequest
      else
        jsonIsValid ← checkJSONAndRegister rawData fileName configPath;
        if jsonIsValid : bool then
          WriteHeader StatusOK;;
          Write (bytes_of "{'success': true, 'message': 'the proxy has been added succesfully'}");;
          mret tt
        else
          WriteHeader StatusBadRequest;;
          Write (bytes_of "{'success': false, 'message': 'domainNames and proxyTo could not be found'}");;
          mret tt
  end.

(** removeProxy respond to delete proxy request *)
Definition removeProxy (configPath : string) : HandlerFunc := λ r,
  let file := mux_Vars r "name" +:+ ".json" in
  err ← os_Remove (configPath +:+ "/" +:+ file);
  match err with
  | Some err =>
      WriteHeader StatusNoContent;;
      Write (bytes_of (Error err));;
      mret tt
  | None => mret tt
  end.

(** The routes [ListenAndServe] registers: apply authentication to all
    routes. *)
Definition routes (configPath : string) : list Route :=
  [ {| template := Fixed "/"; verb := "GET";
       handler := authenticateMiddleware getHome |};
    {| template := Fixed "/proxies"; verb := "GET";
       handler := authenticateMiddleware (getProxies configPath) |};
    {| template := Segment "/proxies/" "name"; verb := "GET";
       handler := authenticateMiddleware (getProxy configPath) |};
    {| template := Segment "/proxies/" "name"; verb := "POST";
       handler := authenticateMiddleware (addProxyWithName configPath) |};
    {| template := Segment "/proxies/" "name"; verb := "DELETE";
       handler := authenticateMiddleware (removeProxy configPath) |} ].


End api.

(** ** A stand-in for [encoding/json]

    Enough of the library to run the scenarios of the specification: it
    decodes the documents below and nothing else, and quotes strings that
    need no escaping. *)

Definition dq : string := String "034"%char EmptyString.

Definition sample_quote (s : string) : string := dq +:+ s +:+ dq.

(** The body of scenario 2: a [domainNames] list holding [example.com] and
    the [proxyTo] address [10.0.0.5:25565]. *)
Definition example_body : bytes :=
  bytes_of ("{" +:+ sample_quote "domainNames" +:+ ":[" +:+ sample_quote "example.com"
            +:+ "]," +:+ sample_quote "proxyTo" +:+ ":" +:+ sample_quote "10.0.0.5:25565"
            +:+ "}").

(** The text up to the first double quote, and what follows that quote. *)
Fixpoint until_dq (s : string) : option (string * string) :=
  match s with
  | EmptyString => None
  | String c s' =>
      if Ascii.eqb c "034"%char then Some (EmptyString, s')
      else '(v, rest) ← until_dq s'; Some (String c v, rest)
  end.

Definition sample_json : Json :=
  {| Unmarshal_ProxyConfig b :=
       if decide (string_of b = string_of example_body) then
         Some {| DomainNames := ["example.com"]; ProxyTo := "10.0.0.5:25565" |}
       else if decide (string_of b = "{}") then
         Some {| DomainNames := []; ProxyTo := EmptyString |}
       else None;
     Unmarshal_APIConfig b old :=
       rest ← strip_prefix ("{" +:+ sample_quote "bearerToken" +:+ ":" +:+ dq) (string_of b);
       '(v, rest) ← until_dq rest;
       if decide (rest = "}") then Some {| BearerToken := v |} else None;
     quote := sample_quote |}.

(** A request as the router hands it to a handler. *)
Definition request (method path : string) (auth : option string) (body : bytes)
    (name : string) : Request :=
  {| Method := method; URLPath := path;
     Header := from_option (λ v, {[ "Authorization" := [v] ]}) ∅ auth;
     ReqBody := body;
     Vars := {[ "name" := name ]} |}.

(** A request as it reaches the router. *)
Definition incoming (method path : string) (auth : option string) (body : bytes) : Request :=
  {| Method := method; URLPath := path;
     Header := from_option (λ v, {[ "Authorization" := [v] ]}) ∅ auth;
     ReqBody := body;
     Vars := ∅ |}.

(** A process that has loaded [secret] and starts to serve a request over
    the files [m]. *)
Definition serving (secret : string) (m : Files) : State :=
  {| config := {| BearerToken := secret |}; files := m; history := [];
     writer := fresh |}.

(** The state in which the next request is served: the same process, a new
    response writer. *)
Definition next_request (st : State) : State :=
  {| config := config st; files := files st; history := history st;
     writer := fresh |}.

(** ** The gate, in the words of the specification

    Rules, in order: missing header, deny with reason "no credential"; header
    not of the exact two-token form [Bearer <value>], deny with reason
    "malformed"; [<value>] not equal to the loaded secret, deny with reason
    "invalid token"; otherwise allow. *)

Inductive Reason := NoCredential | Malformed | InvalidToken.

Inductive Verdict := Allow | Deny (why : Reason).

Definition AuthGate (header secret : string) : Verdict :=
  if decide (header = EmptyString) then Deny NoCredential
  else
    match strip_prefix "Bearer " header with
    | None => Deny Malformed
    | Some value =>
        if has_char " " value then Deny Malformed
        else if decide (value = secret) then Allow
        else Deny InvalidToken
    end.

(** The reason as the middleware words it. *)
Definition reason_text (why : Reason) : string :=
  match why with
  | NoCredential => "No authorization header provided"
  | Malformed => "Invalid authorization header format"
  | InvalidToken => "Invalid token"
  end.

(** The response of a handler that commits [code] and then writes [text]:
    the bytes arrive unless the connection fails. *)
Definition answered (code : nat) (text : bytes) (env : Env) : ResponseWriter :=
  {| Code := Some code; Body := if respWrite_fault env then [] else text |}.

(** The two acknowledgements of the POST handler. *)
Definition added_text : bytes :=
  bytes_of "{'success': true, 'message': 'the proxy has been added succesfully'}".
Definition rejected_text : bytes :=
  bytes_of "{'success': false, 'message': 'domainNames and proxyTo could not be found'}".

(** ** Surroundings in which one call fails *)

(** The file exists but may not be opened. *)
Definition open_denied : Env :=
  {| body_fault := false; writeFile_fault := None; rename_fault := None;
     open_fault := Some EACCES; read_fault := None; readDir_fault := None;
     remove_fault := None; respWrite_fault := false |}.

(** The temporary file is written, the rename is refused. *)
Definition rename_denied : Env :=
  {| body_fault := false; writeFile_fault := None; rename_fault := Some EACCES;
     open_fault := None; read_fault := None; readDir_fault := None;
     remove_fault := None; respWrite_fault := false |}.


(** ** Stored configurations *)

(** A payload that passes the validation of [checkJSONAndRegister]. *)
Definition valid_payload (json : Json) (data : bytes) : Prop :=
  ∃ cfg, Unmarshal_ProxyConfig json data = Some cfg ∧
         DomainNames cfg ≠ [] ∧ ProxyTo cfg ≠ EmptyString.

(** A location whose file name ends in [.json]: the name of a committed
    configuration. *)
Definition committed_name (loc : Location) : Prop :=
  ∃ x up, loc.2 = (x +:+ ".json") :: up.


(** * Properties *)

(** ** Strings *)

Lemma app_cons (c : ascii) (s t : string) :
  String c s +:+ t = String c (s +:+ t).
Proof. reflexivity. Qed.

Lemma app_empty_l (t : string) : EmptyString +:+ t = t.
Proof. reflexivity. Qed.

Lemma app_assoc_str (s t u : string) : (s +:+ t) +:+ u = s +:+ t +:+ u.
Proof.
  induction s as [|c s IH]; [reflexivity|].
  rewrite !app_cons. by rewrite IH.
Qed.

Lemma length_app_str (s t : string) :
  String.length (s +:+ t) = String.length s + String.length t.
Proof.
  induction s as [|c s IH]; [reflexivity|].
  rewrite app_cons. simpl. by rewrite IH.
Qed.

Lemma has_char_app (c : ascii) (s t : string) :
  has_char c (s +:+ t) = has_char c s || has_char c t.
Proof.
  induction s as [|a s IH]; [reflexivity|].
  rewrite app_cons. simpl. rewrite IH. by rewrite orb_assoc.
Qed.

Lemma strip_prefix_Some (pre s v : string) :
  strip_prefix pre s = Some v ↔ s = pre +:+ v.
Proof.
  revert s. induction pre as [|a pre IH]; intros s; simpl.
  - rewrite app_empty_l. split; congruence.
  - destruct s as [|b s]; [by rewrite app_cons|].
    rewrite app_cons. destruct (Ascii.eqb_spec a b) as [->|Hab].
    + rewrite IH. split; congruence.
    + split; congruence.
Qed.

Lemma string_of_empty (b : bytes) : string_of b = EmptyString ↔ b = [].
Proof.
  split; [|by intros ->].
  intros H. rewrite <- (String.list_byte_of_string_of_list_byte b).
  unfold string_of in H. by rewrite H.
Qed.

(** ** Paths *)

Lemma path_components_app (s t : string) :
  has_char "/" t = false →
  ∃ init last,
    path_components s = init ++ [last] ∧
    path_components (s +:+ t) = init ++ [last +:+ t].
Proof.
  intros Ht. induction s as [|c s (init & last & Hs & Hst)].
  - exists [], EmptyString. split; [done|].
    rewrite app_empty_l. simpl.
    induction t as [|a t IH]; [done|].
    simpl in *. apply orb_false_iff in Ht as [Ha Ht].
    rewrite Ha, (IH Ht). done.
  - rewrite app_cons. simpl. rewrite Hs, Hst.
    destruct (Ascii.eqb c "/").
    + by exists (EmptyString :: init), last.
    + destruct init as [|h init]; simpl.
      * by exists [], (String c last).
      * by exists (String c h :: init), last.
Qed.

Lemma is_rooted_app (s t : string) :
  s ≠ EmptyString → is_rooted (s +:+ t) = is_rooted s.
Proof. by destruct s. Qed.

Lemma walk_name (rooted : bool) (stack : list string) (c : string) :
  2 < String.length c → walk rooted stack c = c :: stack.
Proof.
  intros Hc. unfold walk.
  repeat case_decide; subst; simpl in Hc; try lia; done.
Qed.

Lemma walk_length (rooted : bool) (stack : list string) (c : string) :
  walk rooted stack c = c :: stack ∨ length (walk rooted stack c) ≤ length stack ∨
  walk rooted stack c = ".." :: stack.
Proof.
  unfold walk. repeat case_decide; subst; auto.
  destruct stack as [|top rest]; simpl.
  - destruct rooted; auto.
  - case_decide; simpl; auto.
Qed.

(** The sibling with the temporary suffix is never the file itself. *)
Lemma resolve_temp_ne (p : string) : resolve (p +:+ ".temp") ≠ resolve p.
Proof.
  unfold resolve. intros H. apply (f_equal snd) in H. simpl in H.
  destruct (path_components_app p ".temp" eq_refl) as (init & last & Hp & Hpt).
  rewrite Hp, Hpt, !fold_left_app in H. simpl in H.
  assert (Hlen : String.length (last +:+ ".temp") = String.length last + 5)
    by apply length_app_str.
  destruct (decide (p = EmptyString)) as [->|Hne].
  { simpl in Hp. destruct init as [|? [|? ?]]; simplify_eq/=. }
  rewrite (is_rooted_app p ".temp" Hne) in H.
  rewrite (walk_name _ _ (last +:+ ".temp")) in H by lia.
  destruct (walk_length (is_rooted p) (fold_left (walk (is_rooted p)) init []) last)
    as [Hw|[Hw|Hw]].
  - rewrite Hw in H. injection H as H.
    apply (f_equal String.length) in H. lia.
  - rewrite <- H in Hw. simpl in Hw. lia.
  - rewrite Hw in H. injection H as H.
    apply (f_equal String.length) in H. simpl in H. lia.
Qed.

(** ** Splitting at spaces *)

Lemma prefix_space (c : ascii) (s : string) :
  String.prefix " " (String c s) = Ascii.eqb c " ".
Proof.
  cbn [String.prefix]. destruct (ascii_dec " " c) as [<-|Hc].
  - by destruct s.
  - symmetry. apply Ascii.eqb_neq. congruence.
Qed.

Lemma Split_space_cons (c : ascii) (s : string) :
  strings_Split (String c s) " " =
    if Ascii.eqb c " " then EmptyString :: strings_Split s " "
    else match strings_Split s " " with
         | h :: t => String c h :: t
         | [] => [String c EmptyString]
         end.
Proof.
  unfold strings_Split. cbn [strings_Split_go].
  by rewrite prefix_space.
Qed.

Lemma Split_nonempty (s sep : string) : strings_Split s sep ≠ [].
Proof.
  unfold strings_Split. generalize 0. induction s as [|c s IH]; intros k; [done|].
  cbn [strings_Split_go]. destruct k; [|apply IH].
  destruct (String.prefix sep (String c s)); [done|].
  by destruct (strings_Split_go sep 0 s).
Qed.

Lemma Split_space_none (s : string) :
  has_char " " s = false → strings_Split s " " = [s].
Proof.
  induction s as [|c s IH]; [done|]. simpl.
  intros [Hc Hs]%orb_false_iff.
  by rewrite Split_space_cons, Hc, (IH Hs).
Qed.

Lemma Split_space_app (a rest : string) :
  has_char " " a = false →
  strings_Split (a +:+ " " +:+ rest) " " = a :: strings_Split rest " ".
Proof.
  induction a as [|c a IH]; simpl.
  - intros _. change (EmptyString +:+ " " +:+ rest) with (String " " rest).
    by rewrite Split_space_cons.
  - intros [Hc Ha]%orb_false_iff.
    by rewrite app_cons, Split_space_cons, Hc, (IH Ha).
Qed.

Lemma first_space (s : string) :
  has_char " " s = false ∨
  ∃ a rest, s = a +:+ " " +:+ rest ∧ has_char " " a = false.
Proof.
  induction s as [|c s IH]; [by left|]. simpl.
  destruct (Ascii.eqb_spec c " ") as [->|Hc].
  - right. by exists EmptyString, s.
  - destruct IH as [Hs|(a & rest & -> & Ha)]; [by left|].
    right. exists (String c a), rest. split; [done|]. simpl.
    by apply Ascii.eqb_neq in Hc as ->.
Qed.

Lemma first_space_unique (a a' rest rest' : string) :
  has_char " " a = false → has_char " " a' = false →
  a +:+ " " +:+ rest = a' +:+ " " +:+ rest' → a = a' ∧ rest = rest'.
Proof.
  revert a'. induction a as [|c a IH]; intros [|c' a']; simpl;
    rewrite ?app_cons, ?app_empty_l.
  - intros _ _ H. by simplify_eq.
  - intros _ [Hc _]%orb_false_iff H. by simplify_eq.
  - intros [Hc _]%orb_false_iff _ H. by simplify_eq.
  - intros [_ Ha]%orb_false_iff [_ Ha']%orb_false_iff H.
    injection H as -> H.
    by destruct (IH a' Ha Ha' H) as [-> ->].
Qed.

(** The three tests of the middleware decide as the gate of the
    specification does. *)
Lemma gate_tests (h secret : string) :
  h ≠ EmptyString →
  AuthGate h secret =
    let headerParts := strings_Split h " " in
    if decide (length headerParts ≠ 2 ∨ nth 0 headerParts EmptyString ≠ "Bearer")
    then Deny Malformed
    else if decide (nth 1 headerParts EmptyString ≠ secret)
         then Deny InvalidToken else Allow.
Proof.
  intros Hh. unfold AuthGate. rewrite decide_False by done. cbv zeta.
  destruct (first_space h) as [Hn|(a & rest & -> & Ha)].
  { rewrite (Split_space_none h Hn). rewrite decide_True by (left; simpl; lia).
    destruct (strip_prefix "Bearer " h) as [v|] eqn:Hv; [|done].
    apply strip_prefix_Some in Hv as ->. by rewrite has_char_app in Hn. }
  rewrite (Split_space_app a rest Ha).
  destruct (first_space rest) as [Hn|(b & rest' & -> & Hb)].
  - rewrite (Split_space_none rest Hn). cbn [length nth].
    destruct (decide (a = "Bearer")) as [->|Hne].
    + rewrite decide_False by (intros [?|?]; done).
      assert (strip_prefix "Bearer " ("Bearer" +:+ " " +:+ rest) = Some rest) as ->
        by (by apply strip_prefix_Some).
      rewrite Hn. repeat case_decide; done.
    + rewrite decide_True by (by right).
      destruct (strip_prefix "Bearer " (a +:+ " " +:+ rest)) as [v|] eqn:Hv; [|done].
      apply strip_prefix_Some in Hv.
      replace ("Bearer " +:+ v) with ("Bearer" +:+ " " +:+ v) in Hv by done.
      apply first_space_unique in Hv as [-> _]; done.
  - rewrite (Split_space_app b rest' Hb).
    pose proof (Split_nonempty rest' " ") as Hne.
    rewrite decide_True
      by (left; destruct (strings_Split rest' " "); simpl; [done|lia]).
    destruct (strip_prefix "Bearer " (a +:+ " " +:+ b +:+ " " +:+ rest')) as [v|] eqn:Hv;
      [|done].
    apply strip_prefix_Some in Hv.
    replace ("Bearer " +:+ v) with ("Bearer" +:+ " " +:+ v) in Hv by done.
    apply first_space_unique in Hv as [_ <-]; [|done..].
    rewrite has_char_app. simpl. by rewrite orb_true_r.
Qed.

(** ** Running the monad *)

Ltac io :=
  cbv [mbind mret IO_bind IO_ret ask get put commit set_writer set_config
       WriteHeader Write Encode log_Println deny
       os_WriteFile os_Rename os_Remove os_Open ioutil_ReadAll ioutil_ReadFile
       ioutil_ReadDir next_request serving fresh
       config files history writer Code Body].

(** ** The gate *)

Lemma authenticateMiddleware_gate (json : Json) (next : HandlerFunc)
    (r : Request) (env : Env) (st : State) :
  authenticateMiddleware json next r env st =
    match AuthGate (Header_Get (Header r) "Authorization") (BearerToken (config st)) with
    | Allow => next r env st
    | Deny why => deny json (reason_text why) env st
    end.
Proof.
  unfold authenticateMiddleware.
  destruct (decide (Header_Get (Header r) "Authorization" = EmptyString)) as [He|Hne].
  { rewrite He. done. }
  rewrite (gate_tests _ (BearerToken (config st)) Hne). cbv zeta.
  case_decide; [done|].
  cbv [mbind IO_bind get]. by case_decide.
Qed.

Lemma deny_run (json : Json) (reason : string) (env : Env) (st : State) :
  deny json reason env (next_request st) =
    (tt, {| config := config st; files := files st; history := history st;
            writer := {| Code := Some StatusUnauthorized;
                         Body := if respWrite_fault env then []
                                 else bytes_of (Marshal_map1 json "error" reason +:+ newline) |} |}).
Proof. io. by destruct (respWrite_fault env). Qed.

Lemma gate_own_secret (secret : string) :
  AuthGate ("Bearer " +:+ secret) secret =
    if has_char " " secret then Deny Malformed else Allow.
Proof.
  unfold AuthGate. rewrite decide_False by done.
  assert (strip_prefix "Bearer " ("Bearer " +:+ secret) = Some secret) as ->
    by (by apply strip_prefix_Some).
  destruct (has_char " " secret); [done|]. by rewrite decide_True.
Qed.

Lemma Header_Get_incoming (method path : string) (auth : option string) (body : bytes) :
  Header_Get (Header (incoming method path auth body)) "Authorization" =
    default EmptyString auth.
Proof.
  unfold Header_Get, incoming. simpl. destruct auth as [v|]; simpl.
  - by rewrite lookup_singleton_eq.
  - by rewrite lookup_empty.
Qed.

Lemma Header_Get_request (method path : string) (auth : option string) (body : bytes)
    (name : string) :
  Header_Get (Header (request method path auth body name)) "Authorization" =
    default EmptyString auth.
Proof.
  unfold Header_Get, request. simpl. destruct auth as [v|]; simpl.
  - by rewrite lookup_singleton_eq.
  - by rewrite lookup_empty.
Qed.

(** C4, as amended.  The middleware decides exactly as the gate of the
    specification: no Authorization header, a header that is not [Bearer],
    one space and a value free of spaces, a value other than the loaded
    secret are turned away in this order, and any other request is passed
    to the wrapped handler.  A request turned away is answered 401 with the
    reason as a JSON object and the wrapped handler does not run: the
    outcome does not depend on it and the files stay as they are.  The header
    made of [Bearer], a space and the loaded secret is let through when the
    secret holds no space, and is turned away as malformed when it holds
    one.  Every route of the router is wrapped in this middleware. *)
Theorem C4_gate (json : Json) :
  (∀ next r env st,
     authenticateMiddleware json next r env st =
       match AuthGate (Header_Get (Header r) "Authorization") (BearerToken (config st)) with
       | Allow => next r env st
       | Deny why => deny json (reason_text why) env st
       end) ∧
  (∀ why env st,
     let st' := (deny json (reason_text why) env (next_request st)).2 in
     status (writer st') = StatusUnauthorized ∧
     Body (writer st') =
       (if respWrite_fault env then []
        else bytes_of (Marshal_map1 json "error" (reason_text why) +:+ newline)) ∧
     files st' = files st ∧ history st' = history st ∧ config st' = config st) ∧
  (∀ secret,
     AuthGate ("Bearer " +:+ secret) secret =
       if has_char " " secret then Deny Malformed else Allow) ∧
  (∀ configPath,
     Forall (λ rt, ∃ h, handler rt = authenticateMiddleware json h)
            (routes json configPath)).
Proof.
  split; [|split; [|split]].
  - apply authenticateMiddleware_gate.
  - intros why env st. rewrite deny_run. done.
  - apply gate_own_secret.
  - intros configPath. unfold routes. repeat constructor; eauto.
Qed.

(** C4 does not hold as the specification words it when the secret holds a
    space: [LoadConfig] accepts the secret [a b], and the request whose
    header is [Bearer a b] is answered 401, malformed. *)
Lemma C4_secret_with_space_refused :
  let doc := bytes_of ("{" +:+ sample_quote "bearerToken" +:+ ":" +:+ sample_quote "a b" +:+ "}") in
  let '(err, st) :=
    LoadConfig sample_json "api.json" no_faults (serving EmptyString {[ resolve "api.json" := doc ]}) in
  let r := request "GET" "/" (Some ("Bearer " +:+ BearerToken (config st))) [] EmptyString in
  let st' := (authenticateMiddleware sample_json getHome r no_faults st).2 in
  err = None ∧
  BearerToken (config st) = "a b" ∧
  Header_Get (Header r) "Authorization" = "Bearer a b" ∧
  status (writer st') = StatusUnauthorized ∧
  Body (writer st') =
    bytes_of (Marshal_map1 sample_json "error" "Invalid authorization header format" +:+ newline).
Proof. vm_compute. done. Qed.

(** C8, as amended.  The root route is guarded by the gate like every other
    route: [GET /] is served by the middleware wrapped around the no-op
    handler.  Without an Authorization header the answer is 401; with the
    header [Bearer], a space and the loaded secret, the secret holding no
    space, the handler runs and leaves the response untouched, which the
    server sends as an empty 200. *)
Theorem C8_root_is_guarded (json : Json) (configPath : string) :
  (∀ auth body env st,
     ServeHTTP (routes json configPath) (incoming "GET" "/" auth body) env st =
       authenticateMiddleware json getHome (incoming "GET" "/" auth body) env st) ∧
  (∀ body env st,
     status (writer (ServeHTTP (routes json configPath)
                       (incoming "GET" "/" None body) env (next_request st)).2)
       = StatusUnauthorized) ∧
  (∀ body env st,
     let secret := BearerToken (config st) in
     ServeHTTP (routes json configPath)
       (incoming "GET" "/" (Some ("Bearer " +:+ secret)) body) env (next_request st) =
       if has_char " " secret
       then deny json (reason_text Malformed) env (next_request st)
       else (tt, next_request st)).
Proof.
  assert (Hroot : ∀ auth body env st,
     ServeHTTP (routes json configPath) (incoming "GET" "/" auth body) env st =
       authenticateMiddleware json getHome (incoming "GET" "/" auth body) env st)
    by done.
  split; [exact Hroot|split].
  - intros body env st.
    rewrite Hroot, authenticateMiddleware_gate, Header_Get_incoming. simpl.
    by rewrite deny_run.
  - intros body env st secret.
    rewrite Hroot, authenticateMiddleware_gate, Header_Get_incoming.
    change (BearerToken (config (next_request st))) with secret.
    cbn [default from_option id]. rewrite gate_own_secret.
    by destruct (has_char " " secret).
Qed.

(** C8 does not hold as the specification words it: a request for [GET /]
    that carries no Authorization header is answered 401 with the reason of
    the gate, not an empty 200. *)
Lemma C8_root_without_header_is_401 :
  let st' := (ServeHTTP (routes sample_json "configs")
                (incoming "GET" "/" None []) no_faults (serving "secret123" ∅)).2 in
  status (writer st') = StatusUnauthorized ∧
  Body (writer st') =
    bytes_of (Marshal_map1 sample_json "error" "No authorization header provided" +:+ newline).
Proof. vm_compute. done. Qed.

(** ** The handlers, run *)

Lemma getProxy_run (configPath : string) (r : Request) (env : Env) (st : State) :
  getProxy configPath r env (next_request st) =
    (tt, {| config := config st; files := files st; history := history st;
            writer :=
              match files st !! resolve (configPath +:+ "/" +:+ mux_Vars r "name" +:+ ".json") with
              | None => {| Code := Some StatusNotFound; Body := [] |}
              | Some data =>
                  match open_fault env, read_fault env with
                  | Some _, _ => {| Code := Some StatusNotFound; Body := [] |}
                  | None, Some _ => {| Code := Some StatusInternalServerError; Body := [] |}
                  | None, None =>
                      {| Code := Some StatusOK;
                         Body := if respWrite_fault env then [] else data |}
                  end
              end |}).
Proof.
  destruct st as [c m hs rw]. unfold getProxy. io.
  destruct (m !! _) as [data|]; [|done].
  destruct (open_fault env); [done|].
  destruct (read_fault env); [done|].
  by destruct (respWrite_fault env).
Qed.

Lemma removeProxy_run (configPath : string) (r : Request) (env : Env) (st : State) :
  let path := configPath +:+ "/" +:+ mux_Vars r "name" +:+ ".json" in
  let refused (e : Errno) : unit * State :=
    (tt, {| config := config st; files := files st; history := history st;
            writer := {| Code := Some StatusNoContent;
                         Body := if respWrite_fault env then []
                                 else bytes_of (Error (PathError "remove" path e)) |} |}) in
  removeProxy configPath r env (next_request st) =
    match files st !! resolve path with
    | None => refused ENOENT
    | Some _ =>
        match remove_fault env with
        | Some e => refused e
        | None =>
            (tt, {| config := config st;
                    files := delete (resolve path) (files st);
                    history := history st ++ [delete (resolve path) (files st)];
                    writer := fresh |})
        end
    end.
Proof.
  destruct st as [c m hs rw]. unfold removeProxy. io.
  destruct (m !! _) as [data|].
  - destruct (remove_fault env); [|done]. by destruct (respWrite_fault env).
  - by destruct (respWrite_fault env).
Qed.

Lemma checkJSONAndRegister_run (json : Json) (rawData : bytes)
    (filename configPath : string) (env : Env) (st : State) :
  let path := configPath +:+ "/" +:+ filename in
  let temp := path +:+ ".temp" in
  let writes :=
    (λ k, <[resolve temp := take k rawData]> (files st)) <$> seq 0 (S (length rawData)) in
  let written := <[resolve temp := rawData]> (files st) in
  let renamed := <[resolve path := rawData]> (delete (resolve temp) written) in
  let keep (m : Files) (hs : list Files) : State :=
    {| config := config st; files := m; history := hs; writer := writer st |} in
  checkJSONAndRegister json rawData filename configPath env st =
    match Unmarshal_ProxyConfig json rawData with
    | None => (false, st)
    | Some cfg =>
        if decide (length (DomainNames cfg) < 1 ∨ ProxyTo cfg = EmptyString)
        then (false, st)
        else
          match writeFile_fault env with
          | Some (_, None) => (false, st)
          | Some (_, Some partial) =>
              (false, keep (<[resolve temp := partial]> (files st))
                           (history st ++ [<[resolve temp := partial]> (files st)]))
          | None =>
              match rename_fault env with
              | Some _ => (false, keep written (history st ++ writes))
              | None => (true, keep renamed (history st ++ writes ++ [renamed]))
              end
          end
    end.
Proof.
  destruct st as [c m hs rw]. unfold checkJSONAndRegister. io.
  destruct (Unmarshal_ProxyConfig json rawData) as [cfg|]; [|done].
  case_decide; [done|].
  destruct (writeFile_fault env) as [[e [partial|]]|]; [done..|].
  destruct (rename_fault env); [done|].
  rewrite lookup_insert_eq. by rewrite <- app_assoc.
Qed.

Lemma addProxyWithName_run (json : Json) (configPath : string) (r : Request)
    (env : Env) (st : State) :
  let checked :=
    checkJSONAndRegister json (ReqBody r) (mux_Vars r "name" +:+ ".json") configPath
      env (next_request st) in
  let reply (st1 : State) (rw : ResponseWriter) : unit * State :=
    (tt, {| config := config st1; files := files st1; history := history st1;
            writer := rw |}) in
  addProxyWithName json configPath r env (next_request st) =
    if body_fault env then reply st {| Code := Some StatusBadRequest; Body := [] |}
    else if decide (string_of (ReqBody r) = EmptyString)
         then reply st {| Code := Some StatusBadRequest; Body := [] |}
         else if checked.1
              then reply checked.2 (answered StatusOK added_text env)
              else reply checked.2 (answered StatusBadRequest rejected_text env).
Proof.
  cbv zeta. rewrite checkJSONAndRegister_run.
  unfold addProxyWithName.
  cbv [mbind IO_bind ioutil_ReadAll ask mret IO_ret].
  destruct (body_fault env); [by destruct st|].
  case_decide; [by destruct st|].
  rewrite checkJSONAndRegister_run.
  destruct st as [c m hs rw].
  destruct (Unmarshal_ProxyConfig json (ReqBody r)) as [cfg|];
    [case_decide; [|destruct (writeFile_fault env) as [[e [partial|]]|];
                     [| |destruct (rename_fault env)]]|];
    io; unfold answered; by destruct (respWrite_fault env).
Qed.

(** ** Writing a configuration *)

Lemma valid_fields (cfg : ProxyConfig) :
  DomainNames cfg ≠ [] → ProxyTo cfg ≠ EmptyString →
  ¬ (length (DomainNames cfg) < 1 ∨ ProxyTo cfg = EmptyString).
Proof. intros Hd Hp [Hl|?]; [|done]. destruct (DomainNames cfg); simpl in Hl; [done|lia]. Qed.

Lemma invalid_fields (cfg : ProxyConfig) :
  DomainNames cfg = [] ∨ ProxyTo cfg = EmptyString →
  length (DomainNames cfg) < 1 ∨ ProxyTo cfg = EmptyString.
Proof. intros [->|?]; [left; simpl; lia|by right]. Qed.






(** C1.  A payload that passes validation, posted under a name and then read
    back under the same name, comes back byte for byte: the POST is
    answered 200 and leaves the posted bytes under the final name, and the
    GET is answered 200 with exactly these bytes.  No call fails on the
    way, and [json.Unmarshal] refuses the empty input. *)
Theorem C1_post_then_get (json : Json) (configPath : string) (rp rg : Request)
    (cfg : ProxyConfig) (st : State) :
  Unmarshal_ProxyConfig json [] = None →
  Unmarshal_ProxyConfig json (ReqBody rp) = Some cfg →
  DomainNames cfg ≠ [] → ProxyTo cfg ≠ EmptyString →
  mux_Vars rg "name" = mux_Vars rp "name" →
  let st1 := (addProxyWithName json configPath rp no_faults (next_request st)).2 in
  let st2 := (getProxy configPath rg no_faults (next_request st1)).2 in
  status (writer st1) = StatusOK ∧
  files st1 !! resolve (configPath +:+ "/" +:+ mux_Vars rp "name" +:+ ".json")
    = Some (ReqBody rp) ∧
  status (writer st2) = StatusOK ∧
  Body (writer st2) = ReqBody rp.
Proof.
  intros Hempty Hcfg Hd Hp Hname. cbv zeta.
  assert (Hne : string_of (ReqBody rp) ≠ EmptyString).
  { intros H%string_of_empty. rewrite H in Hcfg. congruence. }
  rewrite addProxyWithName_run, checkJSONAndRegister_run, Hcfg.
  rewrite (decide_False (P := string_of _ = _)) by done.
  rewrite (decide_False (P := _ ∨ _)) by by apply valid_fields.
  cbn [no_faults body_fault writeFile_fault rename_fault fst snd
       config files history writer].
  rewrite getProxy_run, Hname.
  cbn [files writer]. rewrite lookup_insert_eq. done.
Qed.

Lemma C1_post_then_get_witness :
  let rp := request "POST" "/proxies/example" (Some "Bearer secret123") example_body "example" in
  let rg := request "GET" "/proxies/example" (Some "Bearer secret123") [] "example" in
  let st1 := (addProxyWithName sample_json "configs" rp no_faults
                (next_request (serving "secret123" ∅))).2 in
  let st2 := (getProxy "configs" rg no_faults (next_request st1)).2 in
  status (writer st2) = StatusOK ∧ Body (writer st2) = example_body.
Proof.
  pose proof (C1_post_then_get sample_json "configs"
    (request "POST" "/proxies/example" (Some "Bearer secret123") example_body "example")
    (request "GET" "/proxies/example" (Some "Bearer secret123") [] "example")
    {| DomainNames := ["example.com"]; ProxyTo := "10.0.0.5:25565" |}
    (serving "secret123" ∅)
    ltac:(vm_compute; reflexivity) ltac:(vm_compute; reflexivity)
    ltac:(done) ltac:(done) ltac:(vm_compute; reflexivity)) as H.
  cbv zeta in H. destruct H as (_ & _ & H3 & H4). split; [exact H3|exact H4].
Defined.

(** C3.  A POST whose body is empty, does not decode, or decodes to a
    configuration with no domain name or no target is answered 400, whatever
    else fails, and changes no file: the files are what they were, and no
    reader has seen any other state of them. *)
Theorem C3_invalid_post_changes_nothing (json : Json) (configPath : string)
    (r : Request) (env : Env) (st : State) :
  ReqBody r = [] ∨
  Unmarshal_ProxyConfig json (ReqBody r) = None ∨
  (∃ cfg, Unmarshal_ProxyConfig json (ReqBody r) = Some cfg ∧
          (DomainNames cfg = [] ∨ ProxyTo cfg = EmptyString)) →
  let st' := (addProxyWithName json configPath r env (next_request st)).2 in
  status (writer st') = StatusBadRequest ∧
  files st' = files st ∧
  history st' = history st.
Proof.
  intros Hbad. cbv zeta.
  rewrite addProxyWithName_run, checkJSONAndRegister_run.
  destruct (body_fault env); [done|].
  case_decide as Hbody; [done|].
  destruct Hbad as [H|[H|(cfg & H & Hf)]].
  - rewrite H in Hbody. done.
  - rewrite H. done.
  - rewrite H. rewrite decide_True by by apply invalid_fields. done.
Qed.

Lemma C3_invalid_post_changes_nothing_witness :
  let r := request "POST" "/proxies/bad" (Some "Bearer secret123") (bytes_of "{}") "bad" in
  let st' := (addProxyWithName sample_json "configs" r no_faults
                (next_request (serving "secret123" ∅))).2 in
  status (writer st') = StatusBadRequest ∧ files st' = ∅.
Proof.
  pose proof (C3_invalid_post_changes_nothing sample_json "configs"
    (request "POST" "/proxies/bad" (Some "Bearer secret123") (bytes_of "{}") "bad")
    no_faults (serving "secret123" ∅)) as H.
  cbv zeta in H. specialize (H ltac:(
    right; right; exists {| DomainNames := []; ProxyTo := EmptyString |};
    split; [vm_compute; reflexivity|by left])).
  destruct H as (H1 & H2 & _). split; [exact H1|exact H2].
Defined.

(** C5.  What the code does when the body passes validation and the write
    of the temporary file or the rename fails: the final name keeps what it
    had, and the answer is 400 with the text of a validation failure, where
    the specification asks for 500. *)
Theorem C5_io_failure_is_answered_400 (json : Json) (configPath : string)
    (r : Request) (cfg : ProxyConfig) (env : Env) (st : State) :
  body_fault env = false →
  ReqBody r ≠ [] →
  Unmarshal_ProxyConfig json (ReqBody r) = Some cfg →
  DomainNames cfg ≠ [] → ProxyTo cfg ≠ EmptyString →
  writeFile_fault env ≠ None ∨ rename_fault env ≠ None →
  let path := configPath +:+ "/" +:+ mux_Vars r "name" +:+ ".json" in
  let st' := (addProxyWithName json configPath r env (next_request st)).2 in
  status (writer st') = StatusBadRequest ∧
  Body (writer st') = (if respWrite_fault env then [] else rejected_text) ∧
  files st' !! resolve path = files st !! resolve path.
Proof.
  intros Hb Hne Hcfg Hd Hp Hio. cbv zeta.
  rewrite addProxyWithName_run, checkJSONAndRegister_run, Hb, Hcfg.
  rewrite (decide_False (P := string_of _ = _)) by by rewrite string_of_empty.
  rewrite (decide_False (P := _ ∨ _)) by by apply valid_fields.
  destruct (writeFile_fault env) as [[e [partial|]]|];
    [| |destruct (rename_fault env); [|by destruct Hio]];
    cbn [fst snd config files history writer next_request];
    (split; [done|split; [done|]]); try done;
    apply lookup_insert_ne, resolve_temp_ne.
Qed.

Lemma C5_io_failure_is_answered_400_witness :
  let r := request "POST" "/proxies/example" (Some "Bearer secret123") example_body "example" in
  let st' := (addProxyWithName sample_json "configs" r rename_denied
                (next_request (serving "secret123" ∅))).2 in
  status (writer st') = StatusBadRequest ∧
  Body (writer st') = rejected_text ∧
  files st' !! resolve "configs/example.json" = None.
Proof.
  pose proof (C5_io_failure_is_answered_400 sample_json "configs"
    (request "POST" "/proxies/example" (Some "Bearer secret123") example_body "example")
    {| DomainNames := ["example.com"]; ProxyTo := "10.0.0.5:25565" |}
    rename_denied (serving "secret123" ∅)) as H.
  cbv zeta in H.
  specialize (H eq_refl).
  specialize (H ltac:(vm_compute; discriminate)).
  specialize (H ltac:(vm_compute; reflexivity)).
  specialize (H ltac:(discriminate) ltac:(discriminate)).
  specialize (H ltac:(right; discriminate)).
  destruct H as (H1 & H2 & H3).
  split; [exact H1|]. split; [exact H2|exact H3].
Defined.

(** ** Reading and deleting a configuration *)

(** C7, as amended.  [GET /proxies/{name}] is answered 404 whenever the file
    cannot be opened: when no file exists under the name, and also when a
    file exists and opening it fails.  It is answered 500 when the opened
    file cannot be read, and otherwise 200 with the stored bytes, verbatim.
    The files are left as they are. *)
Theorem C7_read_answers (configPath : string) (r : Request) (env : Env) (st : State) :
  let path := configPath +:+ "/" +:+ mux_Vars r "name" +:+ ".json" in
  let st' := (getProxy configPath r env (next_request st)).2 in
  files st' = files st ∧
  match files st !! resolve path with
  | None => status (writer st') = StatusNotFound ∧ Body (writer st') = []
  | Some data =>
      match open_fault env, read_fault env with
      | Some _, _ => status (writer st') = StatusNotFound ∧ Body (writer st') = []
      | None, Some _ =>
          status (writer st') = StatusInternalServerError ∧ Body (writer st') = []
      | None, None =>
          status (writer st') = StatusOK ∧
          Body (writer st') = if respWrite_fault env then [] else data
      end
  end.
Proof.
  cbv zeta. rewrite getProxy_run. cbn [snd files writer]. split; [done|].
  destruct (files st !! _) as [data|]; [|done].
  destruct (open_fault env); [done|]. by destruct (read_fault env).
Qed.

(** C7 does not hold as the specification words it: the file exists,
    opening it is refused, and the answer is 404 where the specification
    asks for 500. *)
Lemma C7_open_failure_is_404 :
  let m : Files := {[ resolve "configs/example.json" := example_body ]} in
  let r := request "GET" "/proxies/example" (Some "Bearer secret123") [] "example" in
  let st' := (getProxy "configs" r open_denied (serving "secret123" m)).2 in
  m !! resolve ("configs" +:+ "/" +:+ mux_Vars r "name" +:+ ".json") = Some example_body ∧
  open_fault open_denied = Some EACCES ∧
  status (writer st') = StatusNotFound.
Proof. vm_compute. done. Qed.


(** ** Listing the configurations *)

Lemma foldl_collect {A B : Type} (g : A → B) (l : list A) (acc : list B) :
  foldl (λ acc x, acc ++ [g x]) acc l = acc ++ (g <$> l).
Proof.
  revert acc. induction l as [|x l IH]; intros acc; simpl.
  - by rewrite app_nil_r.
  - by rewrite IH, <- app_assoc.
Qed.

Lemma getProxies_run (json : Json) (configPath : string) (r : Request)
    (env : Env) (st : State) :
  let entries :=
    merge_sort String.le (omap (entry_of (resolve configPath)) (map_to_list (files st)).*1) in
  let reported := (λ n, nth 0 (strings_Split n ".json") EmptyString) <$> entries in
  getProxies json configPath r env (next_request st) =
    (tt, {| config := config st; files := files st; history := history st;
            writer :=
              match readDir_fault env with
              | Some _ => {| Code := Some StatusInternalServerError; Body := [] |}
              | None =>
                  answered StatusOK
                    (bytes_of (Marshal_strings json reported +:+ newline)) env
              end |}).
Proof.
  destruct st as [c m hs rw]. unfold getProxies, answered. io.
  destruct (readDir_fault env); [done|].
  rewrite foldl_collect, app_nil_l, <- list_fmap_compose.
  by destruct (respWrite_fault env).
Qed.

Lemma entry_of_Some (dir loc : Location) (n : string) :
  entry_of dir loc = Some n ↔ loc = (dir.1, n :: dir.2).
Proof.
  unfold entry_of. destruct loc as [rooted [|c up]]; simpl.
  - split; [done|]. intros H. by simplify_eq.
  - case_decide as H.
    + destruct H as [-> ->]. split; intros H; by simplify_eq.
    + split; [done|]. intros H'. simplify_eq. by destruct H.
Qed.

(** The entries of a directory are the names of the files right below it. *)
Lemma entries_spec (dir : Location) (m : Files) (n : string) :
  n ∈ merge_sort String.le (omap (entry_of dir) (map_to_list m).*1) ↔
  is_Some (m !! (dir.1, n :: dir.2)).
Proof.
  rewrite merge_sort_Permutation, list_elem_of_omap. split.
  - intros (loc & Hloc & ->%entry_of_Some).
    apply list_elem_of_fmap in Hloc as ([loc' data] & -> & Hin).
    apply elem_of_map_to_list in Hin. by exists data.
  - intros [data Hdata]. exists (dir.1, n :: dir.2). split.
    + apply list_elem_of_fmap. exists ((dir.1, n :: dir.2), data). split; [done|].
      by apply elem_of_map_to_list.
    + by apply entry_of_Some.
Qed.

Lemma prefix_app (s t : string) : String.prefix s (s +:+ t) = true.
Proof.
  induction s as [|c s IH].
  - by destruct t.
  - rewrite app_cons. cbn [String.prefix]. by destruct (ascii_dec c c).
Qed.

(** A name is reported up to its first [.json]. *)
Lemma reported_name (n rest : string) :
  has_char "." n = false →
  nth 0 (strings_Split (n +:+ ".json" +:+ rest) ".json") EmptyString = n.
Proof.
  intros Hn. unfold strings_Split. induction n as [|c n IH].
  - rewrite app_empty_l.
    change (".json" +:+ rest) with (String "." ("json" +:+ rest)).
    cbn [strings_Split_go].
    change (String "." ("json" +:+ rest)) with (".json" +:+ rest).
    by rewrite prefix_app.
  - simpl in Hn. apply orb_false_iff in Hn as [Hc Hn].
    rewrite app_cons. cbn [strings_Split_go String.prefix].
    destruct (ascii_dec "." c) as [<-|_]; [done|].
    specialize (IH Hn).
    pose proof (Split_nonempty (n +:+ ".json" +:+ rest) ".json") as Hne.
    unfold strings_Split in Hne.
    destruct (strings_Split_go ".json" 0 (n +:+ ".json" +:+ rest)); [done|].
    simpl in *. by rewrite IH.
Qed.




(** ** Names and storage paths *)

Lemma path_components_nonempty (p : string) : path_components p ≠ [].
Proof.
  destruct p as [|c p]; [done|]. simpl.
  destruct (Ascii.eqb c "/"); [done|]. by destruct (path_components p).
Qed.

Lemma path_components_slash (s t : string) :
  path_components (s +:+ "/" +:+ t) = path_components s ++ path_components t.
Proof.
  induction s as [|c s IH]; [done|].
  rewrite app_cons. simpl. rewrite IH.
  destruct (Ascii.eqb c "/"); [done|].
  pose proof (path_components_nonempty s).
  by destruct (path_components s).
Qed.

Lemma path_components_plain (t : string) :
  has_char "/" t = false → path_components t = [t].
Proof.
  induction t as [|c t IH]; [done|]. simpl.
  intros [Hc Ht]%orb_false_iff. by rewrite Hc, (IH Ht).
Qed.

Lemma is_rooted_slash (s t : string) :
  is_rooted (s +:+ "/" +:+ t) = if decide (s = EmptyString) then true else is_rooted s.
Proof. by destruct s. Qed.

(** A name without a slash addresses a file of the configuration
    directory. *)
Lemma plain_name_inside (configPath name : string) :
  configPath ≠ EmptyString → has_char "/" name = false →
  inside (resolve configPath) (resolve (configPath +:+ "/" +:+ name +:+ ".json")).
Proof.
  intros Hcp Hname. unfold inside, resolve.
  rewrite is_rooted_slash, decide_False by done. cbn [fst snd].
  split; [done|].
  rewrite path_components_slash, (path_components_plain (name +:+ ".json")),
    fold_left_app by by rewrite has_char_app, Hname.
  cbn [fold_left].
  assert (Hlen : 2 < String.length (name +:+ ".json"))
    by (rewrite length_app_str; simpl; lia).
  rewrite walk_name by done.
  exists [name +:+ ".json"]. split_and!; [done..|].
  intros H%list_elem_of_singleton. rewrite <- H in Hlen. simpl in Hlen. lia.
Qed.

(** The name [../x] addresses a file that is not in the configuration
    directory, unless that directory is the root, which has no parent. *)
Lemma traversal_escapes (configPath : string) :
  resolve configPath ≠ (true, []) →
  ¬ inside (resolve configPath) (resolve (configPath +:+ "/" +:+ "../x" +:+ ".json")).
Proof.
  intros Hroot (Hr & below & Hloc & Hne & Hup). revert Hroot Hr Hloc.
  unfold resolve. rewrite is_rooted_slash. cbn [fst snd].
  rewrite path_components_slash, fold_left_app.
  change (path_components ("../x" +:+ ".json")) with [".."; "x.json"].
  case_decide as Hcp.
  { subst configPath. simpl. done. }
  cbn [fold_left].
  set (rooted := is_rooted configPath).
  set (stack := fold_left (walk rooted) (path_components configPath) []).
  rewrite (walk_name _ _ "x.json") by (simpl; lia).
  intros Hroot _ Hloc. unfold walk in Hloc.
  rewrite decide_False, decide_False, decide_True in Hloc by done.
  destruct stack as [|top rest].
  - destruct rooted; [done|].
    rewrite app_nil_r in Hloc. subst below. apply Hup. set_solver.
  - case_decide as Htop.
    + apply (app_inv_tail _ ["x.json"; ".."]) in Hloc. subst below.
      apply Hup. set_solver.
    + apply (f_equal length) in Hloc. rewrite length_app in Hloc. simpl in Hloc.
      destruct below; [done|]. simpl in Hloc. lia.
Qed.

(** C10.  Whatever the name segment is, the three handlers address the file
    [configPath/name.json], the name taken as it comes: GET answers with the
    content stored under that path, DELETE removes the file of that path,
    and a valid POST leaves its payload under that path.  A name without a
    slash stays in the configuration directory; the name [../x] does not:
    it addresses a file outside of it. *)
Theorem C10_name_is_verbatim (json : Json) (configPath : string) (r : Request)
    (st : State) :
  let name := mux_Vars r "name" in
  let path := configPath +:+ "/" +:+ name +:+ ".json" in
  (∀ data, files st !! resolve path = Some data →
     writer (getProxy configPath r no_faults (next_request st)).2
       = {| Code := Some StatusOK; Body := data |}) ∧
  (∀ data, files st !! resolve path = Some data →
     files (removeProxy configPath r no_faults (next_request st)).2
       = delete (resolve path) (files st)) ∧
  (∀ cfg, Unmarshal_ProxyConfig json [] = None →
     Unmarshal_ProxyConfig json (ReqBody r) = Some cfg →
     DomainNames cfg ≠ [] → ProxyTo cfg ≠ EmptyString →
     files (addProxyWithName json configPath r no_faults (next_request st)).2
       !! resolve path = Some (ReqBody r)) ∧
  (configPath ≠ EmptyString → has_char "/" name = false →
     inside (resolve configPath) (resolve path)) ∧
  (name = "../x" → resolve configPath ≠ (true, []) →
     ¬ inside (resolve configPath) (resolve path)).
Proof.
  cbv zeta. split_and!.
  - intros data Hdata. rewrite getProxy_run, Hdata. done.
  - intros data Hdata. rewrite removeProxy_run. cbv zeta. rewrite Hdata. done.
  - intros cfg Hempty Hcfg Hd Hp.
    assert (Hne : string_of (ReqBody r) ≠ EmptyString).
    { intros H%string_of_empty. rewrite H in Hcfg. congruence. }
    rewrite addProxyWithName_run, checkJSONAndRegister_run, Hcfg.
    rewrite (decide_False (P := string_of _ = _)) by done.
    rewrite (decide_False (P := _ ∨ _)) by by apply valid_fields.
    cbn [no_faults body_fault writeFile_fault rename_fault fst snd files].
    apply lookup_insert_eq.
  - apply plain_name_inside.
  - intros ->. apply traversal_escapes.
Qed.

Lemma C10_name_is_verbatim_witness :
  let m : Files := {[ resolve "x.json" := example_body ]} in
  let r := request "DELETE" "/proxies/../x" (Some "Bearer secret123") [] "../x" in
  let st' := (removeProxy "configs" r no_faults (next_request (serving "secret123" m))).2 in
  files st' !! resolve "x.json" = None ∧
  ¬ inside (resolve "configs") (resolve "x.json").
Proof.
  pose proof (C10_name_is_verbatim sample_json "configs"
    (request "DELETE" "/proxies/../x" (Some "Bearer secret123") [] "../x")
    (serving "secret123" {[ resolve "x.json" := example_body ]})) as H.
  cbv zeta in H. destruct H as (_ & Hdel & _ & _ & Hout).
  split.
  - specialize (Hdel example_body ltac:(vm_compute; reflexivity)).
    cbv zeta. rewrite Hdel. vm_compute. reflexivity.
  - apply Hout; [vm_compute; reflexivity|vm_compute; discriminate].
Defined.

(** * Further properties *)

(** ** Loading the configuration *)

Lemma LoadConfig_run (json : Json) (configFile : string) (env : Env) (st : State) :
  LoadConfig json configFile env st =
    match files st !! resolve configFile with
    | None => (Some (PathError "open" configFile ENOENT), st)
    | Some data =>
        match open_fault env, read_fault env with
        | Some e, _ => (Some (PathError "open" configFile e), st)
        | None, Some e => (Some (PathError "read" EmptyString e), st)
        | None, None =>
            match Unmarshal_APIConfig json data (config st) with
            | None => (Some (errorString "invalid character"), st)
            | Some c =>
                (if decide (BearerToken c = EmptyString)
                 then Some (errorString "bearer token not found in config file")
                 else None,
                 {| config := c; files := files st; history := history st;
                    writer := writer st |})
            end
        end
    end.
Proof.
  destruct st as [c m hs rw]. unfold LoadConfig. io.
  destruct (m !! _) as [data|]; [|done].
  destruct (open_fault env); [done|].
  destruct (read_fault env); [done|]. cbn [content].
  destruct (Unmarshal_APIConfig json data c) as [c'|]; [|done].
  by case_decide.
Qed.

(** [LoadConfig] never touches a file.  When it returns no error, the
    configuration file exists, [config] holds what it decodes to, and the
    token is not empty; without the file the error is that of the open. *)
Theorem LoadConfig_loads_nonempty_token (json : Json) (configFile : string)
    (env : Env) (st : State) :
  let res := LoadConfig json configFile env st in
  files res.2 = files st ∧ history res.2 = history st ∧ writer res.2 = writer st ∧
  (res.1 = None →
     BearerToken (config res.2) ≠ EmptyString ∧
     ∃ data, files st !! resolve configFile = Some data ∧
             Unmarshal_APIConfig json data (config st) = Some (config res.2)) ∧
  (files st !! resolve configFile = None →
     res.1 = Some (PathError "open" configFile ENOENT) ∧ config res.2 = config st).
Proof.
  cbv zeta. rewrite LoadConfig_run.
  destruct (files st !! _) as [data|]; [|by destruct st].
  destruct (open_fault env); [by destruct st|].
  destruct (read_fault env); [by destruct st|].
  destruct (Unmarshal_APIConfig json data (config st)) as [c|] eqn:Hc; [|by destruct st].
  cbn [fst snd config files history writer]. split_and!; try done.
  case_decide; [done|]. intros _. eauto.
Qed.

Lemma LoadConfig_loads_nonempty_token_witness :
  let doc := bytes_of ("{" +:+ sample_quote "bearerToken" +:+ ":" +:+ sample_quote "secret123" +:+ "}") in
  let res := LoadConfig sample_json "api.json" no_faults
               (serving EmptyString {[ resolve "api.json" := doc ]}) in
  res.1 = None ∧ BearerToken (config res.2) ≠ EmptyString.
Proof.
  pose proof (LoadConfig_loads_nonempty_token sample_json "api.json" no_faults
    (serving EmptyString
       {[ resolve "api.json" :=
            bytes_of ("{" +:+ sample_quote "bearerToken" +:+ ":" +:+ sample_quote "secret123" +:+ "}") ]}))
    as H.
  cbv zeta in H. destruct H as (_ & _ & _ & H & _).
  assert (Hok : (LoadConfig sample_json "api.json" no_faults
                   (serving EmptyString
                      {[ resolve "api.json" :=
                           bytes_of ("{" +:+ sample_quote "bearerToken" +:+ ":"
                                     +:+ sample_quote "secret123" +:+ "}") ]})).1 = None)
    by (vm_compute; reflexivity).
  split; [exact Hok|exact (proj1 (H Hok))].
Defined.



(** ** A secret that holds a space *)

(** With a secret that holds a space the wrapped handler never runs: every
    request, whatever its header, is turned away by the gate. *)
Theorem secret_with_space_admits_nobody (json : Json) (next : HandlerFunc)
    (r : Request) (env : Env) (st : State) :
  has_char " " (BearerToken (config st)) = true →
  ∃ why, authenticateMiddleware json next r env st = deny json (reason_text why) env st.
Proof.
  intros Hsp. rewrite authenticateMiddleware_gate. unfold AuthGate.
  case_decide; [by eexists|].
  destruct (strip_prefix _ _) as [v|]; [|by eexists].
  destruct (has_char " " v) eqn:Hv; [by eexists|].
  case_decide as Heq; [|by eexists].
  rewrite Heq in Hv. congruence.
Qed.

Lemma secret_with_space_admits_nobody_witness :
  ∃ why,
    authenticateMiddleware sample_json getHome
      (request "GET" "/" (Some "Bearer a b") [] EmptyString) no_faults (serving "a b" ∅)
    = deny sample_json (reason_text why) no_faults (serving "a b" ∅).
Proof.
  exact (secret_with_space_admits_nobody sample_json getHome
           (request "GET" "/" (Some "Bearer a b") [] EmptyString) no_faults
           (serving "a b" ∅) eq_refl).
Defined.

(** ** More on strings and paths *)

Lemma app_empty_r (s : string) : s +:+ EmptyString = s.
Proof. induction s as [|c s IH]; [done|]. by rewrite app_cons, IH. Qed.

Lemma app_inv_tail_str (s s' t : string) : s +:+ t = s' +:+ t → s = s'.
Proof.
  revert s'. induction s as [|c s IH]; intros [|c' s'] H.
  - done.
  - apply (f_equal String.length) in H.
    rewrite app_cons, app_empty_l in H. simpl in H.
    rewrite length_app_str in H. lia.
  - apply (f_equal String.length) in H.
    rewrite app_cons, app_empty_l in H. simpl in H.
    rewrite length_app_str in H. lia.
  - rewrite !app_cons in H. injection H as -> H. by rewrite (IH s' H).
Qed.

(** No name ends both in [.json] and in [.temp]. *)
Lemma json_ne_temp (x y : string) : x +:+ ".json" ≠ y +:+ ".temp".
Proof.
  revert y. induction x as [|c x IH]; intros [|c' y] H.
  - done.
  - rewrite app_cons, app_empty_l in H. injection H as _ H.
    apply (f_equal String.length) in H. rewrite length_app_str in H.
    simpl in H. lia.
  - rewrite app_cons, app_empty_l in H. injection H as _ H.
    apply (f_equal String.length) in H. rewrite length_app_str in H.
    simpl in H. lia.
  - rewrite !app_cons in H. injection H as _ H. by apply (IH y).
Qed.

(** The file name of a path is its last component, suffix included. *)
Lemma resolve_suffix (p t : string) :
  p ≠ EmptyString → has_char "/" t = false → 2 < String.length t →
  ∃ x up, resolve (p +:+ t) = (is_rooted p, (x +:+ t) :: up).
Proof.
  intros Hp Ht Hlen. unfold resolve.
  destruct (path_components_app p t Ht) as (init & last & _ & ->).
  rewrite (is_rooted_app p t Hp), fold_left_app. cbn [fold_left].
  rewrite walk_name by (rewrite length_app_str; lia). eauto.
Qed.

(** The storage path of a name without a slash, resolved. *)
Lemma resolve_plain (configPath name suffix : string) :
  configPath ≠ EmptyString → has_char "/" name = false →
  has_char "/" suffix = false → 2 < String.length suffix →
  resolve (configPath +:+ "/" +:+ name +:+ suffix) =
    ((resolve configPath).1, (name +:+ suffix) :: (resolve configPath).2).
Proof.
  intros Hcp Hname Hsuf Hlen. unfold resolve.
  rewrite is_rooted_slash, decide_False by done. cbn [fst snd].
  rewrite path_components_slash, (path_components_plain (name +:+ suffix)),
    fold_left_app by by rewrite has_char_app, Hname.
  cbn [fold_left]. by rewrite walk_name by (rewrite length_app_str; lia).
Qed.

(** ** What a POST does to the files *)

Lemma addProxyWithName_files (json : Json) (configPath : string) (r : Request)
    (env : Env) (st : State) :
  let path := configPath +:+ "/" +:+ mux_Vars r "name" +:+ ".json" in
  let temp := path +:+ ".temp" in
  let st' := (addProxyWithName json configPath r env (next_request st)).2 in
  config st' = config st ∧
  (files st' = files st ∨
   (∃ b, files st' = <[resolve temp := b]> (files st)) ∨
   (valid_payload json (ReqBody r) ∧ status (writer st') = StatusOK ∧
    files st' = <[resolve path := ReqBody r]>
                  (delete (resolve temp) (<[resolve temp := ReqBody r]> (files st))))).
Proof.
  cbv zeta. rewrite addProxyWithName_run, checkJSONAndRegister_run.
  destruct (body_fault env); [by auto|].
  case_decide as Hbody; [by auto|].
  destruct (Unmarshal_ProxyConfig json (ReqBody r)) as [cfg|] eqn:Hcfg; [|by auto].
  case_decide as Hv; [by auto|].
  destruct (writeFile_fault env) as [[e [partial|]]|];
    cbn [fst snd config files writer next_request]; [by eauto..|].
  destruct (rename_fault env);
    cbn [fst snd config files writer next_request]; [by eauto|].
  split; [done|]. right. right. split_and!; [|done..].
  exists cfg. split_and!; [done| |]; intros H; apply Hv.
  - left. rewrite H. simpl. lia.
  - by right.
Qed.

(** A POST is answered 200 only when its payload has passed validation and
    is stored, whole, under the final name; with any other outcome the
    answer is 400 and the final name keeps what it had.  This holds whatever
    call fails. *)
Theorem post_answer_tells_the_outcome (json : Json) (configPath : string)
    (r : Request) (env : Env) (st : State) :
  let path := configPath +:+ "/" +:+ mux_Vars r "name" +:+ ".json" in
  let st' := (addProxyWithName json configPath r env (next_request st)).2 in
  (status (writer st') = StatusOK ∧ valid_payload json (ReqBody r) ∧
   files st' !! resolve path = Some (ReqBody r)) ∨
  (status (writer st') = StatusBadRequest ∧
   files st' !! resolve path = files st !! resolve path).
Proof.
  cbv zeta. rewrite addProxyWithName_run, checkJSONAndRegister_run.
  destruct (body_fault env); [by right|].
  case_decide as Hbody; [by right|].
  destruct (Unmarshal_ProxyConfig json (ReqBody r)) as [cfg|] eqn:Hcfg; [|by right].
  case_decide as Hv; [by right|].
  destruct (writeFile_fault env) as [[e [partial|]]|];
    cbn [fst snd config files writer next_request].
  - right. split; [done|]. apply lookup_insert_ne, resolve_temp_ne.
  - by right.
  - destruct (rename_fault env); cbn [fst snd config files writer next_request].
    + right. split; [done|]. apply lookup_insert_ne, resolve_temp_ne.
    + left. split_and!; [done| |apply lookup_insert_eq].
      exists cfg. split_and!; [done| |]; intros H; apply Hv.
      * left. rewrite H. simpl. lia.
      * by right.
Qed.

(** A POST changes no file but the one of its name and the temporary
    sibling of that file, whatever its body and whatever call fails. *)
Theorem post_touches_two_files (json : Json) (configPath : string)
    (r : Request) (env : Env) (st : State) (loc : Location) :
  let path := configPath +:+ "/" +:+ mux_Vars r "name" +:+ ".json" in
  let st' := (addProxyWithName json configPath r env (next_request st)).2 in
  loc ≠ resolve path → loc ≠ resolve (path +:+ ".temp") →
  files st' !! loc = files st !! loc.
Proof.
  cbv zeta. intros Hp Ht.
  destruct (addProxyWithName_files json configPath r env st)
    as (_ & [-> |[[b ->]|(_ & _ & ->)]]).
  - done.
  - by rewrite lookup_insert_ne.
  - by rewrite lookup_insert_ne, lookup_delete_ne, lookup_insert_ne.
Qed.

Lemma post_touches_two_files_witness :
  let m : Files := {[ resolve "configs/other.json" := example_body ]} in
  let r := request "POST" "/proxies/example" (Some "Bearer secret123") example_body "example" in
  let st' := (addProxyWithName sample_json "configs" r no_faults
                (next_request (serving "secret123" m))).2 in
  files st' !! resolve "configs/other.json" = Some example_body.
Proof.
  pose proof (post_touches_two_files sample_json "configs"
    (request "POST" "/proxies/example" (Some "Bearer secret123") example_body "example")
    no_faults
    (serving "secret123" {[ resolve "configs/other.json" := example_body ]})
    (resolve "configs/other.json")) as H.
  cbv zeta in H.
  specialize (H ltac:(vm_compute; discriminate) ltac:(vm_compute; discriminate)).
  cbv zeta. rewrite H. apply lookup_singleton_eq.
Defined.

(** When the rename fails the temporary file is not cleaned up: it stays
    behind with the whole payload, so the files have changed although the
    answer is 400. *)
Theorem failed_rename_leaves_temp (json : Json) (configPath : string)
    (r : Request) (e : Errno) (env : Env) (st : State) :
  body_fault env = false → ReqBody r ≠ [] →
  valid_payload json (ReqBody r) →
  writeFile_fault env = None → rename_fault env = Some e →
  let path := configPath +:+ "/" +:+ mux_Vars r "name" +:+ ".json" in
  let st' := (addProxyWithName json configPath r env (next_request st)).2 in
  status (writer st') = StatusBadRequest ∧
  files st' = <[resolve (path +:+ ".temp") := ReqBody r]> (files st) ∧
  files st' !! resolve (path +:+ ".temp") = Some (ReqBody r).
Proof.
  intros Hb Hne (cfg & Hcfg & Hd & Hp) Hw Hr. cbv zeta.
  rewrite addProxyWithName_run, checkJSONAndRegister_run, Hb, Hcfg, Hw, Hr.
  rewrite (decide_False (P := string_of _ = _)) by by rewrite string_of_empty.
  rewrite (decide_False (P := _ ∨ _)) by by apply valid_fields.
  cbn [fst snd config files writer next_request].
  split_and!; [done..|]. apply lookup_insert_eq.
Qed.

Lemma failed_rename_leaves_temp_witness :
  let r := request "POST" "/proxies/example" (Some "Bearer secret123") example_body "example" in
  let st' := (addProxyWithName sample_json "configs" r rename_denied
                (next_request (serving "secret123" ∅))).2 in
  status (writer st') = StatusBadRequest ∧
  files st' !! resolve "configs/example.json.temp" = Some example_body.
Proof.
  pose proof (failed_rename_leaves_temp sample_json "configs"
    (request "POST" "/proxies/example" (Some "Bearer secret123") example_body "example")
    EACCES rename_denied (serving "secret123" ∅)) as H.
  cbv zeta in H.
  specialize (H eq_refl ltac:(vm_compute; discriminate)).
  specialize (H ltac:(
    exists {| DomainNames := ["example.com"]; ProxyTo := "10.0.0.5:25565" |};
    split; [vm_compute; reflexivity|split; discriminate])).
  specialize (H eq_refl eq_refl).
  destruct H as (H1 & _ & H3). split; [exact H1|exact H3].
Defined.

(** ** Operations in sequence *)



(** Two names without a slash have different files, and the temporary file
    of the one is not the file of the other. *)
Lemma plain_names_apart (configPath n n' : string) :
  configPath ≠ EmptyString → has_char "/" n = false → has_char "/" n' = false →
  n ≠ n' →
  let path (x : string) := configPath +:+ "/" +:+ x +:+ ".json" in
  resolve (path n') ≠ resolve (path n) ∧
  resolve (path n') ≠ resolve (path n +:+ ".temp").
Proof.
  intros Hcp Hn Hn' Hne. cbv beta zeta.
  replace ((configPath +:+ "/" +:+ n +:+ ".json") +:+ ".temp")
    with (configPath +:+ "/" +:+ n +:+ ".json.temp")
    by (by rewrite !app_assoc_str).
  rewrite !resolve_plain by (done || simpl; lia).
  split; intros H; simplify_eq.
  - by apply app_inv_tail_str in H.
  - by apply (json_ne_temp n' (n +:+ ".json")); rewrite app_assoc_str.
Qed.

(** A POST under one name changes nothing for a GET under another: with
    two different names without a slash, the answer to the GET is the same
    after the POST as before it, whatever the POST carries and whatever
    call fails in it. *)
Theorem post_leaves_other_names (json : Json) (configPath : string)
    (rp rg : Request) (env env2 : Env) (st : State) :
  configPath ≠ EmptyString →
  has_char "/" (mux_Vars rp "name") = false →
  has_char "/" (mux_Vars rg "name") = false →
  mux_Vars rg "name" ≠ mux_Vars rp "name" →
  let st1 := (addProxyWithName json configPath rp env (next_request st)).2 in
  writer (getProxy configPath rg env2 (next_request st1)).2 =
  writer (getProxy configPath rg env2 (next_request st)).2.
Proof.
  intros Hcp Hp Hg Hne. cbv zeta. rewrite !getProxy_run. cbn [snd writer].
  destruct (plain_names_apart configPath _ _ Hcp Hp Hg (not_eq_sym Hne)) as [H1 H2].
  cbv beta zeta in H1, H2.
  destruct (addProxyWithName_files json configPath rp env st)
    as (_ & [-> |[[b ->]|(_ & _ & ->)]]).
  - done.
  - by rewrite lookup_insert_ne.
  - by rewrite lookup_insert_ne, lookup_delete_ne, lookup_insert_ne.
Qed.

Lemma post_leaves_other_names_witness :
  let m : Files := {[ resolve "configs/other.json" := example_body ]} in
  let rp := request "POST" "/proxies/example" (Some "Bearer secret123") example_body "example" in
  let rg := request "GET" "/proxies/other" (Some "Bearer secret123") [] "other" in
  let st1 := (addProxyWithName sample_json "configs" rp no_faults
                (next_request (serving "secret123" m))).2 in
  writer (getProxy "configs" rg no_faults (next_request st1)).2 =
  writer (getProxy "configs" rg no_faults (next_request (serving "secret123" m))).2.
Proof.
  exact (post_leaves_other_names sample_json "configs"
    (request "POST" "/proxies/example" (Some "Bearer secret123") example_body "example")
    (request "GET" "/proxies/other" (Some "Bearer secret123") [] "other")
    no_faults no_faults
    (serving "secret123" {[ resolve "configs/other.json" := example_body ]})
    ltac:(discriminate) ltac:(vm_compute; reflexivity) ltac:(vm_compute; reflexivity)
    ltac:(vm_compute; discriminate)).
Defined.

Lemma addProxyWithName_stores (json : Json) (configPath : string) (r : Request)
    (cfg : ProxyConfig) (st : State) :
  Unmarshal_ProxyConfig json [] = None →
  Unmarshal_ProxyConfig json (ReqBody r) = Some cfg →
  DomainNames cfg ≠ [] → ProxyTo cfg ≠ EmptyString →
  let st' := (addProxyWithName json configPath r no_faults (next_request st)).2 in
  config st' = config st ∧
  writer st' = {| Code := Some StatusOK; Body := added_text |} ∧
  files st' !! resolve (configPath +:+ "/" +:+ mux_Vars r "name" +:+ ".json")
    = Some (ReqBody r).
Proof.
  intros Hempty Hcfg Hd Hp. cbv zeta.
  assert (Hne : string_of (ReqBody r) ≠ EmptyString).
  { intros H%string_of_empty. rewrite H in Hcfg. congruence. }
  rewrite addProxyWithName_run, checkJSONAndRegister_run, Hcfg.
  rewrite (decide_False (P := string_of _ = _)) by done.
  rewrite (decide_False (P := _ ∨ _)) by by apply valid_fields.
  cbn [no_faults body_fault writeFile_fault rename_fault fst snd
       config files history writer next_request].
  split_and!; [done..|]. apply lookup_insert_eq.
Qed.

(** After a POST that goes through, under a name without slash or dot, the
    listing holds the name. *)
Theorem post_then_list (json : Json) (configPath : string) (rp rl : Request)
    (cfg : ProxyConfig) (st : State) :
  configPath ≠ EmptyString →
  has_char "/" (mux_Vars rp "name") = false →
  has_char "." (mux_Vars rp "name") = false →
  Unmarshal_ProxyConfig json [] = None →
  Unmarshal_ProxyConfig json (ReqBody rp) = Some cfg →
  DomainNames cfg ≠ [] → ProxyTo cfg ≠ EmptyString →
  let st1 := (addProxyWithName json configPath rp no_faults (next_request st)).2 in
  let st2 := (getProxies json configPath rl no_faults (next_request st1)).2 in
  ∃ reported,
    mux_Vars rp "name" ∈ reported ∧
    status (writer st2) = StatusOK ∧
    Body (writer st2) = bytes_of (Marshal_strings json reported +:+ newline).
Proof.
  intros Hcp Hslash Hdot Hempty Hcfg Hd Hp. cbv zeta.
  destruct (addProxyWithName_stores json configPath rp cfg st Hempty Hcfg Hd Hp)
    as (_ & _ & Hfile).
  rewrite getProxies_run. cbv zeta. cbn [snd writer no_faults readDir_fault].
  eexists. split_and!; [|done..].
  apply list_elem_of_fmap. exists (mux_Vars rp "name" +:+ ".json"). split.
  - rewrite <- (app_empty_r (mux_Vars rp "name" +:+ ".json")), app_assoc_str.
    by rewrite reported_name.
  - apply entries_spec. rewrite <- resolve_plain by (done || simpl; lia).
    cbn [files]. by rewrite Hfile.
Qed.

Lemma post_then_list_witness :
  let rp := request "POST" "/proxies/example" (Some "Bearer secret123") example_body "example" in
  let rl := request "GET" "/proxies" (Some "Bearer secret123") [] EmptyString in
  let st1 := (addProxyWithName sample_json "configs" rp no_faults
                (next_request (serving "secret123" ∅))).2 in
  let st2 := (getProxies sample_json "configs" rl no_faults (next_request st1)).2 in
  ∃ reported,
    "example" ∈ reported ∧
    status (writer st2) = StatusOK ∧
    Body (writer st2) = bytes_of (Marshal_strings sample_json reported +:+ newline).
Proof.
  pose proof (post_then_list sample_json "configs"
    (request "POST" "/proxies/example" (Some "Bearer secret123") example_body "example")
    (request "GET" "/proxies" (Some "Bearer secret123") [] EmptyString)
    {| DomainNames := ["example.com"]; ProxyTo := "10.0.0.5:25565" |}
    (serving "secret123" ∅)) as H.
  cbv zeta in H.
  specialize (H ltac:(discriminate) ltac:(vm_compute; reflexivity)
                ltac:(vm_compute; reflexivity) ltac:(vm_compute; reflexivity)
                ltac:(vm_compute; reflexivity) ltac:(discriminate) ltac:(discriminate)).
  exact H.
Defined.

(** ** The router *)

(** What the router does with a request: 404, 405, or one of the five
    handlers behind the gate, the last two under their own method only. *)
Lemma ServeHTTP_cases (json : Json) (configPath : string) (r : Request)
    (env : Env) (st : State) :
  let out := ServeHTTP (routes json configPath) r env st in
  out = WriteHeader StatusNotFound env st ∨
  out = WriteHeader StatusMethodNotAllowed env st ∨
  ∃ vars,
    let r' := with_vars r vars in
    (Method r = "GET" ∧
       (out = authenticateMiddleware json getHome r' env st ∨
        out = authenticateMiddleware json (getProxies json configPath) r' env st ∨
        out = authenticateMiddleware json (getProxy configPath) r' env st)) ∨
    (Method r = "POST" ∧
       out = authenticateMiddleware json (addProxyWithName json configPath) r' env st) ∨
    (Method r = "DELETE" ∧
       out = authenticateMiddleware json (removeProxy configPath) r' env st).
Proof.
  cbv zeta. unfold ServeHTTP, routes. cbn [dispatch template verb handler].
  repeat match goal with
  | |- context [match match_template ?t ?p with _ => _ end] =>
      destruct (match_template t p) as [?vars|]
  | |- context [decide (?a = Method r)] =>
      destruct (decide (a = Method r)) as [?Hm|?Hm]
  end;
  first [ by left
        | by (right; left)
        | right; right; eexists; (try (left; split; [done|]; by eauto));
          (try (right; left; split; done)); (try (right; right; split; done)) ].
Qed.

Lemma committed_final (p : string) :
  p ≠ EmptyString → committed_name (resolve (p +:+ ".json")).
Proof.
  intros Hp. destruct (resolve_suffix p ".json" Hp eq_refl) as (x & up & ->).
  { simpl. lia. }
  by exists x, up.
Qed.

Lemma uncommitted_temp (p : string) :
  p ≠ EmptyString → ¬ committed_name (resolve (p +:+ ".temp")).
Proof.
  intros Hp (y & up' & Hy).
  destruct (resolve_suffix p ".temp" Hp eq_refl) as (x & up & Hx).
  { simpl. lia. }
  rewrite Hx in Hy. simpl in Hy. injection Hy as Hy _.
  by apply (json_ne_temp y x).
Qed.

Lemma storage_path_nonempty (configPath rest : string) :
  configPath +:+ "/" +:+ rest ≠ EmptyString.
Proof. by destruct configPath. Qed.

(** What one request, served by the router, can do to the files. *)
Lemma served_files (json : Json) (configPath : string) (r : Request)
    (env : Env) (st : State) :
  let st' := (ServeHTTP (routes json configPath) r env (next_request st)).2 in
  let allowed :=
    AuthGate (Header_Get (Header r) "Authorization") (BearerToken (config st)) = Allow in
  files st' = files st ∨
  (allowed ∧ Method r = "DELETE" ∧ ∃ loc, files st' = delete loc (files st)) ∨
  (allowed ∧ Method r = "POST" ∧
     ((∃ loc b, ¬ committed_name loc ∧ files st' = <[loc := b]> (files st)) ∨
      (∃ loc tmp, valid_payload json (ReqBody r) ∧ ¬ committed_name tmp ∧
         files st' = <[loc := ReqBody r]> (delete tmp (<[tmp := ReqBody r]> (files st)))))).
Proof.
  cbv zeta.
  assert (Hdeny : ∀ why, files (deny json (reason_text why) env (next_request st)).2 = files st)
    by (intros why; by rewrite deny_run).
  assert (Hhead : ∀ code, files (WriteHeader code env (next_request st)).2 = files st)
    by (intros code; by destruct st).
  destruct (ServeHTTP_cases json configPath r env (next_request st))
    as [-> |[-> |(vars & [[Hm Hout]|[[Hm ->]|[Hm ->]]])]]; [by left..| | |].
  - left. destruct Hout as [-> |[-> | ->]];
      rewrite authenticateMiddleware_gate;
      destruct (AuthGate _ _); try apply Hdeny.
    + by destruct st.
    + by rewrite getProxies_run.
    + by rewrite getProxy_run.
  - rewrite authenticateMiddleware_gate.
    change (Header (with_vars r vars)) with (Header r).
    change (config (next_request st)) with (config st).
    destruct (AuthGate _ _) eqn:Hgate; [|left; apply Hdeny].
    destruct (addProxyWithName_files json configPath (with_vars r vars) env st)
      as (_ & [H|[[b H]|(Hv & _ & H)]]); cbv zeta in H.
    + by left.
    + right. right. split_and!; [done..|]. left. eexists _, b. split; [|exact H].
      apply uncommitted_temp, storage_path_nonempty.
    + right. right. split_and!; [done..|]. right. eexists _, _.
      split_and!; [exact Hv| |exact H].
      apply uncommitted_temp, storage_path_nonempty.
  - rewrite authenticateMiddleware_gate.
    change (Header (with_vars r vars)) with (Header r).
    change (config (next_request st)) with (config st).
    destruct (AuthGate _ _) eqn:Hgate; [|left; apply Hdeny].
    rewrite removeProxy_run. cbv zeta.
    destruct (files st !! _); [|by left].
    destruct (remove_fault env); [by left|].
    right. left. split_and!; [done..|]. by eexists.
Qed.

(** Whatever request the router serves, the files change only when the gate
    has let the request through and its method is POST or DELETE. *)
Theorem only_allowed_post_or_delete_writes (json : Json) (configPath : string)
    (r : Request) (env : Env) (st : State) :
  let st' := (ServeHTTP (routes json configPath) r env (next_request st)).2 in
  files st' = files st ∨
  (AuthGate (Header_Get (Header r) "Authorization") (BearerToken (config st)) = Allow ∧
   (Method r = "POST" ∨ Method r = "DELETE")).
Proof.
  cbv zeta.
  destruct (served_files json configPath r env st)
    as [H|[(Ha & Hm & _)|(Ha & Hm & _)]]; auto.
Qed.



(** ** The invariant of the store *)






(** ** From the router to the store and back *)




